(** * ModelMint: the chat screen, the viewer loader and the router

    A shallow embedding of [src/ModelMint3DGenerator.jsx] and [src/App.jsx].
    The React component is modelled as a total step function over the
    component state together with the part of the browser it talks to:
    the clock, the pending [setTimeout] callbacks, the suspended
    [sendMessage] calls, the requests already posted, the scripts
    appended to [document.head] and the custom-element registry.

    One step is one event: a click or a key press, the settling of a
    promise, the passing of time, the arrival of the viewer script. The
    handler runs on the state of the last commit, and the commit that
    follows runs the effect of the viewer loader. The scrolling effect,
    [downloadFile], the markup and the Home button are outside the model. *)

From Stdlib Require Import List Bool NArith ZArith Lia String Ascii DecimalString.
Import ListNotations.

Set Implicit Arguments.
Set Warnings "-register-all".

(** ** JavaScript strings and values *)

Module JS.

(** A JavaScript string is a sequence of UTF-16 code units. *)
Definition code_unit := N.
Definition jsstring := list code_unit.

(** An ASCII literal of the source, as a JavaScript string. *)
Definition lit (s : string) : jsstring :=
  map N_of_ascii (list_ascii_of_string s).

Definition cu_eqb (a b : code_unit) : bool := N.eqb a b.

Fixpoint str_eqb (a b : jsstring) : bool :=
  match a, b with
  | [], [] => true
  | x :: a', y :: b' => cu_eqb x y && str_eqb a' b'
  | _, _ => false
  end.

(** [WhiteSpace] and [LineTerminator] of ECMAScript: what
    [String.prototype.trim] strips from both ends. *)
Definition is_space (c : code_unit) : bool :=
  ((9 <=? c) && (c <=? 13)           (* TAB LF VT FF CR *)
   || (c =? 32) || (c =? 160) || (c =? 5760)
   || ((8192 <=? c) && (c <=? 8202)) (* U+2000 .. U+200A *)
   || (c =? 8232) || (c =? 8233)     (* LS PS *)
   || (c =? 8239) || (c =? 8287) || (c =? 12288)
   || (c =? 65279))%N.               (* BOM *)

Fixpoint trim_start (s : jsstring) : jsstring :=
  match s with
  | c :: s' => if is_space c then trim_start s' else s
  | [] => []
  end.

Definition trim_end (s : jsstring) : jsstring := rev (trim_start (rev s)).

(** [s.trim()] *)
Definition trim (s : jsstring) : jsstring := trim_end (trim_start s).

Fixpoint starts_with (p s : jsstring) : bool :=
  match p, s with
  | [], _ => true
  | x :: p', y :: s' => cu_eqb x y && starts_with p' s'
  | _ :: _, [] => false
  end.

(** [s.includes(p)] *)
Fixpoint includes (p s : jsstring) : bool :=
  starts_with p s
  || match s with
     | [] => false
     | _ :: s' => includes p s'
     end.

(** The decimal rendering of a non-negative integer, as [`${n}`] gives it. *)
Definition of_nat_number (n : N) : jsstring :=
  lit (NilEmpty.string_of_uint (N.to_uint n)).

(** A Number: an IEEE double, kept as sign, mantissa and binary exponent. *)
Inductive number :=
| NaN
| Infinity (negative : bool)
| Finite (negative : bool) (mantissa : N) (exponent : Z).

(** The values [res.json()] can resolve to, and [undefined]. An object is
    the list of its own properties; the parser has already resolved
    duplicate keys, and a lookup returns the first entry of a key. *)
Inductive value :=
| VUndefined
| VNull
| VBool (b : bool)
| VNum (n : number)
| VStr (s : jsstring)
| VArr (items : list value)
| VObj (props : list (jsstring * value)).

(** [ToBoolean] *)
Definition truthy (v : value) : bool :=
  match v with
  | VUndefined | VNull => false
  | VBool b => b
  | VNum NaN => false
  | VNum (Infinity _) => true
  | VNum (Finite _ m _) => negb (m =? 0)%N
  | VStr s => match s with [] => false | _ => true end
  | VArr _ | VObj _ => true
  end.

(** [a || b] *)
Definition or_else (a b : value) : value := if truthy a then a else b.

(** A thrown [Error]; only its [message] is ever read. *)
Record exn := Error { message : jsstring }.

Fixpoint lookup (k : jsstring) (props : list (jsstring * value)) : value :=
  match props with
  | [] => VUndefined
  | (k', v) :: rest => if str_eqb k k' then v else lookup k rest
  end.

(** The wording of the TypeError raised by a property read on [null] or
    [undefined] is the engine's; this is V8's. *)
Definition nullish_read_message (v : value) (k : jsstring) : jsstring :=
  lit "Cannot read properties of "
  ++ (match v with VNull => lit "null" | _ => lit "undefined" end)
  ++ lit " (reading '" ++ k ++ lit "')".

(** [data.k] for [k] one of [text], [image], [stlUrl]: none of them is a
    property of a string, an array, a number or a boolean, nor of
    [Object.prototype]. *)
Definition get (data : value) (k : jsstring) : exn + value :=
  match data with
  | VUndefined | VNull => inl (Error (nullish_read_message data k))
  | VObj props => inr (lookup k props)
  | VBool _ | VNum _ | VStr _ | VArr _ => inr VUndefined
  end.

(** Reading a property that an object literal may or may not have. *)
Definition read (field : option value) : value :=
  match field with
  | Some v => v
  | None => VUndefined
  end.

End JS.

(** ** The chat screen *)

Module Chat.
Import JS.

Inductive role_t := User | Bot.

(** A chat entry, [{ role, text, image?, stlUrl?, ts }]. [image] and
    [stlUrl] are [None] when the object literal has no such property. *)
Record msg := Msg {
  role : role_t;
  text : value;
  image : option value;
  stlUrl : option value;
  ts : N
}.

(** The six [useState] cells of the component. *)
Record state := State {
  prompt : jsstring;
  messages : list msg;
  loading : bool;
  typing : bool;
  previewUrl : value;
  showPreview : bool
}.

Definition initial_state : state :=
  State [] [] false false VNull false.

Definition setPrompt (p : jsstring) (s : state) : state :=
  State p (messages s) (loading s) (typing s) (previewUrl s) (showPreview s).

(** [setMessages] is called with an updater or (by Clear) with a value. *)
Definition setMessages (f : list msg -> list msg) (s : state) : state :=
  State (prompt s) (f (messages s)) (loading s) (typing s) (previewUrl s)
        (showPreview s).

Definition setLoading (b : bool) (s : state) : state :=
  State (prompt s) (messages s) b (typing s) (previewUrl s) (showPreview s).

Definition setTyping (b : bool) (s : state) : state :=
  State (prompt s) (messages s) (loading s) b (previewUrl s) (showPreview s).

Definition setPreviewUrl (u : value) (s : state) : state :=
  State (prompt s) (messages s) (loading s) (typing s) u (showPreview s).

Definition setShowPreview (b : bool) (s : state) : state :=
  State (prompt s) (messages s) (loading s) (typing s) (previewUrl s) b.

(** Where a suspended [sendMessage] call waits. *)
Inductive suspended :=
| AwaitFetch                 (* await fetch("/chat", ...) *)
| AwaitText (status : N)     (* await res.text(), after !res.ok *)
| AwaitJson.                 (* await res.json() *)

(** The component and the browser around it. *)
Record world := World {
  st : state;
  now : N;                        (* Date.now(), in ms *)
  calls : list suspended;         (* sendMessage calls not yet finished *)
  timers : list N;                (* due times of the setTyping(false) timeouts *)
  posted : list jsstring;         (* the message of each POST /chat issued *)
  head_scripts : list jsstring;   (* src of each script appended to head *)
  viewer_defined : bool           (* customElements.get("model-viewer") *)
}.

Definition initial_world : world :=
  World initial_state 0 [] [] [] [] false.

Definition with_st (f : state -> state) (w : world) : world :=
  World (f (st w)) (now w) (calls w) (timers w) (posted w) (head_scripts w)
        (viewer_defined w).

Definition with_calls (f : list suspended -> list suspended) (w : world) : world :=
  World (st w) (now w) (f (calls w)) (timers w) (posted w) (head_scripts w)
        (viewer_defined w).

Definition model_viewer_src : jsstring :=
  lit "https://unpkg.com/@google/model-viewer/dist/model-viewer.min.js".

Definition grace : N := 250.

(** [res.ok] *)
Definition ok (status : N) : bool := ((200 <=? status) && (status <=? 299))%N.

(** *** sendMessage *)

(** The guard of line 57: [!trimmed || loading]. *)
Definition rejected (s : state) : bool :=
  negb (truthy (VStr (trim (prompt s)))) || loading s.

(** The synchronous part of [sendMessage], up to the first [await]. *)
Definition sendMessage (w : world) : world :=
  let trimmed := trim (prompt (st w)) in
  if rejected (st w) then w
  else
    let userMsg := Msg User (VStr trimmed) None None (now w) in
    World (setTyping true
             (setLoading true
                (setPrompt []
                   (setMessages (fun m => m ++ [userMsg]) (st w)))))
          (now w)
          (calls w ++ [AwaitFetch])
          (timers w)
          (posted w ++ [trimmed])
          (head_scripts w)
          (viewer_defined w).

(** The bot message built from the parsed reply (lines 80-86). *)
Definition botMsg (data : value) (t : N) : exn + msg :=
  match get data (lit "text") with
  | inl e => inl e
  | inr dtext =>
      match get data (lit "image") with
      | inl e => inl e
      | inr dimage =>
          match get data (lit "stlUrl") with
          | inl e => inl e
          | inr dstl =>
              inr (Msg Bot (or_else dtext (VStr [])) (Some dimage) (Some dstl) t)
          end
      end
  end.

(** The message of the [catch] branch (lines 90-93). *)
Definition errorMsg (err : exn) (t : N) : msg :=
  Msg Bot (VStr (lit "Error: " ++ message err)) None None t.

(** The error thrown at line 74. *)
Definition server_error (status : N) (body : jsstring) : exn :=
  Error (lit "Server error: " ++ of_nat_number status ++ lit " - " ++ body).

Fixpoint remove_nth {A} (i : nat) (l : list A) : list A :=
  match i, l with
  | _, [] => []
  | O, _ :: l' => l'
  | S i', x :: l' => x :: remove_nth i' l'
  end.

Fixpoint replace_nth {A} (i : nat) (x : A) (l : list A) : list A :=
  match i, l with
  | _, [] => []
  | O, _ :: l' => x :: l'
  | S i', y :: l' => y :: replace_nth i' x l'
  end.

(** The end of the [i]-th suspended call: the [try] block produced a bot
    message or threw; either way one message is appended, then [finally]
    clears [loading] and schedules [setTyping(false)] 250 ms later. *)
Definition settle (i : nat) (r : exn + msg) (w : world) : world :=
  let m := match r with
           | inr b => b
           | inl err => errorMsg err (now w)
           end in
  World (setLoading false (setMessages (fun ms => ms ++ [m]) (st w)))
        (now w)
        (remove_nth i (calls w))
        (timers w ++ [(now w + grace)%N])
        (posted w)
        (head_scripts w)
        (viewer_defined w).

(** How [fetch] settles. *)
Inductive fetch_result :=
| FetchRejected (e : exn)
| FetchResponse (status : N).

(** How [res.text()] or [res.json()] settles. *)
Inductive body_result :=
| BodyRejected (e : exn)
| BodyText (s : jsstring)
| BodyJson (data : value).

Definition fetch_settled (i : nat) (r : fetch_result) (w : world) : world :=
  match nth_error (calls w) i with
  | Some AwaitFetch =>
      match r with
      | FetchRejected e => settle i (inl e) w
      | FetchResponse status =>
          with_calls
            (replace_nth i (if ok status then AwaitJson else AwaitText status)) w
      end
  | _ => w
  end.

Definition body_settled (i : nat) (r : body_result) (w : world) : world :=
  match nth_error (calls w) i, r with
  | Some (AwaitText _), BodyRejected e => settle i (inl e) w
  | Some (AwaitText status), BodyText s => settle i (inl (server_error status s)) w
  | Some AwaitJson, BodyRejected e => settle i (inl e) w
  | Some AwaitJson, BodyJson data => settle i (botMsg data (now w)) w
  | _, _ => w
  end.

(** *** Timers *)

Definition due (t : N) (deadline : N) : bool := (deadline <=? t)%N.

(** The clock moves on by [d] ms; every timeout that falls due runs its
    callback, [setTyping(false)]. *)
Definition advance (d : N) (w : world) : world :=
  let t := (now w + d)%N in
  World (if existsb (due t) (timers w) then setTyping false (st w) else st w)
        t
        (calls w)
        (filter (fun x => negb (due t x)) (timers w))
        (posted w)
        (head_scripts w)
        (viewer_defined w).

(** *** Clear, preview and the viewer loader *)

(** The Clear button: [setMessages([])]. *)
Definition clear (w : world) : world :=
  with_st (setMessages (fun _ => [])) w.

Definition openPreview (url : value) (w : world) : world :=
  with_st (fun s => setShowPreview true (setPreviewUrl url s)) w.

(** The Close button and a click on the backdrop run the same handler. *)
Definition closePreview (w : world) : world :=
  with_st (setShowPreview false) w.

(** The "Preview 3D" button of the [i]-th message; it is rendered only
    when [msg.stlUrl] is truthy. *)
Definition previewMessage (i : nat) (w : world) : world :=
  match nth_error (messages (st w)) i with
  | Some m =>
      if truthy (read (stlUrl m)) then openPreview (read (stlUrl m)) w else w
  | None => w
  end.

(** The body of the first effect (lines 30-37). *)
Definition viewer_effect (w : world) : world :=
  if negb (showPreview (st w)) then w
  else if viewer_defined w then w
  else World (st w) (now w) (calls w) (timers w) (posted w)
             (head_scripts w ++ [model_viewer_src])
             (viewer_defined w).

(** The effect has the dependency list [[showPreview]]: after a commit it
    runs again only if [showPreview] differs from the previous commit. (On
    mount it runs with [showPreview] false and returns at once.) *)
Definition commit (before : bool) (w : world) : world :=
  if Bool.eqb before (showPreview (st w)) then w else viewer_effect w.

(** The loader script has run and registered the element. *)
Definition viewer_loaded (w : world) : world :=
  match head_scripts w with
  | [] => w
  | _ :: _ => World (st w) (now w) (calls w) (timers w) (posted w)
                    (head_scripts w) true
  end.

(** The preview surface: what the modal shows, if it is rendered
    (line 356: [showPreview && previewUrl]). *)
Definition modal (s : state) : option value :=
  if showPreview s && truthy (previewUrl s) then Some (previewUrl s) else None.

(** *** Events *)

Inductive event :=
| Change (s : jsstring)                       (* typing, or a quick prompt *)
| Send                                        (* Generate, or Enter *)
| FetchSettled (i : nat) (r : fetch_result)
| BodySettled (i : nat) (r : body_result)
| Advance (d : N)
| Clear
| Preview (i : nat)
| ClosePreview
| ViewerLoaded.

Definition handle (e : event) (w : world) : world :=
  match e with
  | Change s => with_st (setPrompt s) w
  | Send => sendMessage w
  | FetchSettled i r => fetch_settled i r w
  | BodySettled i r => body_settled i r w
  | Advance d => advance d w
  | Clear => clear w
  | Preview i => previewMessage i w
  | ClosePreview => closePreview w
  | ViewerLoaded => viewer_loaded w
  end.

(** One event: its handler, then the commit that follows it. *)
Definition step (w : world) (e : event) : world :=
  commit (showPreview (st w)) (handle e w).

Definition run (w : world) (es : list event) : world := fold_left step es w.

(** The worlds a session can be in. *)
Inductive reachable : world -> Prop :=
| reach_init : reachable initial_world
| reach_step w e : reachable w -> reachable (step w e).

(** *** Vocabulary of the statements *)

(** The event runs a suspended call to the end of its
    [try]/[catch]/[finally]: the request has resolved, with a reply or
    with a failure. *)
Definition finishes (w : world) (e : event) : bool :=
  match e with
  | FetchSettled i (FetchRejected _) =>
      match nth_error (calls w) i with
      | Some AwaitFetch => true
      | _ => false
      end
  | BodySettled i r =>
      match nth_error (calls w) i, r with
      | Some (AwaitText _), (BodyRejected _ | BodyText _) => true
      | Some AwaitJson, (BodyRejected _ | BodyJson _) => true
      | _, _ => false
      end
  | _ => false
  end.

Definition is_clear (e : event) : bool :=
  match e with
  | Clear => true
  | _ => false
  end.

(** From [w] on, no event of [es] ends a call or clears the list. *)
Fixpoint in_flight_run (w : world) (es : list event) : bool :=
  match es with
  | [] => true
  | e :: es' =>
      negb (finishes w e) && negb (is_clear e) && in_flight_run (step w e) es'
  end.

(** [loading] is set exactly while one call is suspended. *)
Definition single_flight (w : world) : Prop :=
  (loading (st w) = false /\ calls w = [])
  \/ (loading (st w) = true /\ exists c, calls w = [c]).



End Chat.

(** ** The router *)

Module Router.
Import JS.




(** *** React Router's matching, for paths without dynamic segments *)

















(** *** Percent-decoding of the pathname *)

















End Router.

(** ** Sample sessions *)

Module Sessions.
Import JS Chat.

(** The reply [{ "text": "done", "stlUrl": "https://x/y.stl" }]. *)
Definition reply_done : value :=
  VObj [ (lit "text", VStr (lit "done"));
         (lit "stlUrl", VStr (lit "https://x/y.stl")) ].

(** The user types a prompt, sends it and the service answers with a
    model file. *)
Definition first_exchange : list event :=
  [ Change (lit "a coin");
    Send;
    FetchSettled 0 (FetchResponse 200);
    BodySettled 0 (BodyJson reply_done) ].

(** The preview of that model is opened, closed and opened again before
    the viewer script has registered its element. *)
Definition reopen_before_load : list event :=
  first_exchange ++ [ Preview 1; ClosePreview; Preview 1 ].

(** While the first request is in flight the user picks a quick prompt.
    The reply arrives at 1200 ms, the user presses Generate 200 ms later,
    and after another 50 ms the clock reaches the due time of the first
    reply's timeout. *)
Definition resubmit_in_grace : list event :=
  [ Change (lit "a coin");
    Send;
    Advance 1200;
    Change (lit "A cylindrical spacer, outer dia 10mm");
    FetchSettled 0 (FetchResponse 200);
    BodySettled 0 (BodyJson reply_done);
    Advance 200;
    Send;
    Advance 50 ].

(** The second request then resolves too, half a second later. *)
Definition second_reply : list event :=
  [ Advance 500;
    FetchSettled 0 (FetchResponse 200);
    BodySettled 0 (BodyJson reply_done) ].




(** The reply [{ "text": "again", "stlUrl": "https://x/z.stl" }]. *)
Definition reply_again : value :=
  VObj [ (lit "text", VStr (lit "again"));
         (lit "stlUrl", VStr (lit "https://x/z.stl")) ].

(** Two prompts, each answered with a model file of its own. *)
Definition two_exchanges : list event :=
  first_exchange
  ++ [ Advance 300;
       Change (lit "a cube");
       Send;
       FetchSettled 0 (FetchResponse 200);
       BodySettled 0 (BodyJson reply_again) ].

End Sessions.

(** ** Keyboard, quick prompts, download and the rendered screen *)

Module Screen.
Import JS Chat.

(** The part of a [keydown] event the handler reads. *)
Record keyboard_event := KeyboardEvent { key : jsstring; shiftKey : bool }.

(** [handleKeyDown] (lines 101-106); the boolean tells whether
    [preventDefault] was called. *)
Definition handleKeyDown (e : keyboard_event) (w : world) : bool * world :=
  if str_eqb (key e) (lit "Enter") && negb (shiftKey e)
  then (true, sendMessage w)
  else (false, w).

(** The texts of the three quick-prompt buttons (lines 316-338). *)
Definition quick_prompts : list jsstring :=
  [ lit "A round keychain, 30mm diameter, hole at top, text 'PR' engraved";
    lit "A cylindrical spacer, outer dia 10mm, inner hole 4mm, height 8mm, chamfered edges";
    lit "A token with two holes and a star-shaped cutout in the center, 40mm x 25mm, 3mm thick" ].

(** *** downloadFile *)







(** *** What the component renders *)

(** One entry of the chat history (lines 198-248). *)
Record bubble := Bubble {
  avatar : jsstring;             (* the letter of [Avatar] *)
  right_aligned : bool;          (* msg.role === "user" *)
  body : value;                  (* msg.text *)
  picture : option value;        (* the img src, when msg.image is truthy *)
  stl_buttons : option value;    (* the url of Preview 3D and Download STL *)
  caption : jsstring;
  stamp : N                      (* the ts handed to formatTime *)
}.

Definition when_truthy (v : value) : option value :=
  if truthy v then Some v else None.

Definition render_message (m : msg) : bubble :=
  Bubble (match role m with User => lit "Y" | Bot => lit "M" end)
         (match role m with User => true | Bot => false end)
         (text m)
         (when_truthy (read (image m)))
         (when_truthy (read (stlUrl m)))
         (match role m with User => lit "You" | Bot => lit "ModelMint AI" end)
         (ts m).

(** The inside of the preview dialog (lines 400-425): the viewer
    element when the registry has it at the time of the render, and the
    plain link otherwise. *)
Inductive preview_body :=
| ViewerElement (src : value)
| FallbackLink (href : value).

Definition preview_content (registered : bool) (url : value) : preview_body :=
  if registered then ViewerElement url else FallbackLink url.

Definition ellipsis : code_unit := 8230%N.

Record screen := ScreenOf {
  status : jsstring;
  hint : bool;                   (* the "Say something like" line *)
  bubbles : list bubble;
  dots : bool;                   (* the typing indicator *)
  input_value : jsstring;
  input_disabled : bool;
  generate_label : jsstring;
  generate_disabled : bool;
  dialog : option value          (* the target of the preview dialog *)
}.

(** The tree the component function returns when it is called in [w]:
    the parts of the markup that depend on the state. *)
Definition render (w : world) : screen :=
  let s := st w in
  ScreenOf (if loading s then lit "Generating" ++ [ellipsis] else lit "Idle")
           (Nat.eqb (List.length (messages s)) 0)
           (map render_message (messages s))
           (typing s)
           (prompt s)
           (loading s)
           (if loading s then lit "Generating..." else lit "Generate")
           (loading s)
           (modal s).

(** What React accepts as a child: strings, numbers, booleans, [null],
    [undefined], and arrays of such. A plain object makes it throw. *)
Fixpoint valid_child (v : value) : bool :=
  match v with
  | VObj _ => false
  | VArr items =>
      (fix all (l : list value) : bool :=
         match l with
         | [] => true
         | x :: l' => valid_child x && all l'
         end) items
  | _ => true
  end.

(** Every [msg.text] of the history can be drawn (line 214). *)
Definition paints (w : world) : bool :=
  forallb (fun m => valid_child (text m)) (messages (st w)).

(** What is on the screen after the commit of [w]. When React throws on
    a child there is no error boundary above the component ([App] has
    none): the whole tree is unmounted and nothing is shown. *)
Definition shown (w : world) : option screen :=
  if paints w then Some (render w) else None.

(** The worlds of a session in which the screen still stands: every
    commit so far could be drawn. *)
Inductive live : world -> Prop :=
| live_init : live initial_world
| live_step w e : live w -> paints (step w e) = true -> live (step w e).


(** *** Vocabulary of the statements *)

(** A user entry as [sendMessage] makes it: a non-empty text without
    whitespace at either end, no image and no model file. *)
Definition user_entry (m : msg) : Prop :=
  role m = User ->
  exists t, text m = VStr t /\ t <> [] /\ trim t = t
            /\ image m = None /\ stlUrl m = None.

Definition is_preview (e : event) : bool :=
  match e with
  | Preview _ => true
  | _ => false
  end.

Definition is_send (e : event) : bool :=
  match e with
  | Send => true
  | _ => false
  end.

(** The event ends a call with a failure: [fetch] or the body read
    rejected, or the status was not a success. *)
Definition fails (w : world) (e : event) : bool :=
  match e with
  | FetchSettled i (FetchRejected _) =>
      match nth_error (calls w) i with
      | Some AwaitFetch => true
      | _ => false
      end
  | BodySettled i (BodyRejected _) =>
      match nth_error (calls w) i with
      | Some (AwaitText _) | Some AwaitJson => true
      | _ => false
      end
  | BodySettled i (BodyText _) =>
      match nth_error (calls w) i with
      | Some (AwaitText _) => true
      | _ => false
      end
  | _ => false
  end.

(** The call that was suspended in [before] is over in [after]: no call
    is left, [loading] is cleared and one bot entry has been appended. *)
Definition ended (before after : world) : Prop :=
  calls after = []
  /\ loading (st after) = false
  /\ exists b, role b = Bot
               /\ messages (st after) = messages (st before) ++ [b].


End Screen.

(** * Properties *)

Import JS Chat Sessions.

(** ** Strings *)

Lemma cu_eqb_refl c : cu_eqb c c = true.
Proof. apply N.eqb_refl. Qed.

Lemma starts_with_app p s : starts_with p (p ++ s) = true.
Proof.
  induction p as [|c p IH]; cbn; [reflexivity|].
  now rewrite cu_eqb_refl, IH.
Qed.

Lemma includes_app p a b : includes p (a ++ p ++ b) = true.
Proof.
  induction a as [|c a IH]; cbn [app].
  - destruct (p ++ b) eqn:E; cbn; rewrite <- ?E, starts_with_app; reflexivity.
  - cbn. rewrite IH. apply orb_true_r.
Qed.

Lemma trim_start_blank s : forallb is_space s = true -> trim_start s = [].
Proof.
  induction s as [|c s IH]; cbn; [reflexivity|].
  intros H. apply andb_prop in H as [Hc Hs]. rewrite Hc. auto.
Qed.

(** Whitespace-only input has an empty trimmed form. *)
Lemma trim_blank s : forallb is_space s = true -> trim s = [].
Proof.
  intros H. unfold trim, trim_end. now rewrite (trim_start_blank s H).
Qed.

(** ** Commits and the frame of each handler *)

Ltac commit_cases :=
  unfold commit, viewer_effect;
  repeat match goal with
         | |- context [if ?c then _ else _] => destruct c eqn:?
         end;
  cbn; congruence.

Lemma st_commit b w : st (commit b w) = st w.
Proof.
  commit_cases.
Qed.

Lemma calls_commit b w : calls (commit b w) = calls w.
Proof.
  commit_cases.
Qed.

Lemma now_commit b w : now (commit b w) = now w.
Proof.
  commit_cases.
Qed.

Lemma timers_commit b w : timers (commit b w) = timers w.
Proof.
  commit_cases.
Qed.

Lemma posted_commit b w : posted (commit b w) = posted w.
Proof.
  commit_cases.
Qed.

Lemma viewer_defined_commit b w : viewer_defined (commit b w) = viewer_defined w.
Proof.
  commit_cases.
Qed.

(** A commit that leaves [showPreview] as it was runs no effect. *)
Lemma commit_same w : commit (showPreview (st w)) w = w.
Proof. unfold commit. now rewrite Bool.eqb_reflx. Qed.

Lemma commit_unchanged b w : showPreview (st w) = b -> commit b w = w.
Proof. intros <-. apply commit_same. Qed.

Lemma st_step w e : st (step w e) = st (handle e w).
Proof. apply st_commit. Qed.

Lemma calls_step w e : calls (step w e) = calls (handle e w).
Proof. apply calls_commit. Qed.

Lemma now_step w e : now (step w e) = now (handle e w).
Proof. apply now_commit. Qed.

Lemma timers_step w e : timers (step w e) = timers (handle e w).
Proof. apply timers_commit. Qed.

Lemma run_app w es1 es2 : run w (es1 ++ es2) = run (run w es1) es2.
Proof. apply fold_left_app. Qed.

Lemma reachable_run w es : reachable w -> reachable (run w es).
Proof.
  revert w. induction es as [|e es IH]; intros w H; cbn; [exact H|].
  apply IH. now constructor.
Qed.

(** ** One request at a time *)

Lemma botMsg_role data t b : botMsg data t = inr b -> role b = Bot.
Proof.
  unfold botMsg.
  destruct (get data (lit "text")); [discriminate|].
  destruct (get data (lit "image")); [discriminate|].
  destruct (get data (lit "stlUrl")); [discriminate|].
  intros [= <-]. reflexivity.
Qed.

(** Every way a call can end appends one bot message: the reply, or the
    error text of the [catch] branch. *)
Lemma finishes_settle w e :
  finishes w e = true ->
  exists i b,
    role b = Bot
    /\ nth_error (calls w) i <> None
    /\ handle e w = settle i (inr b) w.
Proof.
  destruct e as [| |i r|i r| | | | |]; cbn; try discriminate.
  - destruct r as [err|status]; [|discriminate].
    unfold fetch_settled.
    destruct (nth_error (calls w) i) as [[| |]|] eqn:E; try discriminate.
    intros _. exists i, (errorMsg err (now w)).
    repeat split; congruence.
  - unfold body_settled.
    destruct (nth_error (calls w) i) as [[|status|]|] eqn:E, r; try discriminate;
      intros _.
    + exists i, (errorMsg e (now w)). repeat split; congruence.
    + exists i, (errorMsg (server_error status s) (now w)). repeat split; congruence.
    + exists i, (errorMsg e (now w)). repeat split; congruence.
    + destruct (botMsg data (now w)) as [err|b] eqn:B.
      * exists i, (errorMsg err (now w)). repeat split; congruence.
      * exists i, b. repeat split; try congruence.
        now apply botMsg_role in B.
Qed.

Lemma single_flight_settle i b w :
  single_flight w -> nth_error (calls w) i <> None ->
  loading (st w) = true /\ calls (settle i (inr b) w) = [].
Proof.
  intros [[_ Hc]|[Hl [c Hc]]] Hi; rewrite Hc in Hi.
  - destruct i; cbn in Hi; congruence.
  - split; [exact Hl|]. cbn. rewrite Hc.
    destruct i as [|i]; [reflexivity|].
    destruct i; cbn in Hi; congruence.
Qed.

Lemma single_flight_step w e : single_flight w -> single_flight (step w e).
Proof.
  intros H. unfold single_flight. rewrite st_step, calls_step.
  destruct (finishes w e) eqn:F.
  - destruct (finishes_settle w e F) as (i & b & _ & Hi & ->).
    destruct (single_flight_settle i b H Hi) as [_ Hc].
    left. split; [reflexivity|exact Hc].
  - destruct e as [p| |i r|i r|d| |i| |]; cbn in *.
    + exact H.
    + unfold sendMessage, rejected.
      destruct H as [[Hl Hc]|[Hl Hc]]; rewrite Hl.
      * destruct (negb _); cbn; [left; auto|].
        right. split; [reflexivity|]. rewrite Hc. now exists AwaitFetch.
      * rewrite orb_true_r. right. auto.
    + unfold fetch_settled in *.
      destruct (nth_error (calls w) i) as [[| |]|] eqn:E; try exact H.
      destruct r as [err|status]; [discriminate|]. cbn.
      destruct H as [[_ Hc]|[Hl [c Hc]]]; rewrite Hc in *.
      * destruct i; discriminate.
      * right. split; [exact Hl|].
        destruct i as [|i]; [cbn; eauto|]. destruct i; discriminate.
    + unfold body_settled in *.
      destruct (nth_error (calls w) i) as [[| |]|] eqn:E, r;
        try exact H; discriminate.
    + unfold advance. cbn. destruct (existsb _ _); exact H.
    + exact H.
    + unfold previewMessage. destruct (nth_error _ _) as [m|]; [|exact H].
      destruct (truthy _); exact H.
    + exact H.
    + unfold viewer_loaded. destruct (head_scripts w); exact H.
Qed.

(** The single-flight policy: in every world of a session [loading] is
    set exactly while one [sendMessage] call is suspended. *)
Lemma reachable_single_flight w : reachable w -> single_flight w.
Proof.
  induction 1 as [|w e _ IH].
  - left. split; reflexivity.
  - now apply single_flight_step.
Qed.

(** ** Submitting *)

Lemma rejected_false w :
  trim (prompt (st w)) <> [] -> loading (st w) = false -> rejected (st w) = false.
Proof.
  intros Ht Hl. unfold rejected. rewrite Hl. cbn.
  destruct (trim (prompt (st w))); [congruence|reflexivity].
Qed.

Lemma rejected_true w :
  loading (st w) = true \/ trim (prompt (st w)) = [] -> rejected (st w) = true.
Proof.
  unfold rejected. intros [-> | ->]; [apply orb_true_r|reflexivity].
Qed.

Lemma sendMessage_rejected w :
  loading (st w) = true \/ trim (prompt (st w)) = [] -> sendMessage w = w.
Proof. intros H. unfold sendMessage. now rewrite (rejected_true w H). Qed.

(** While a call is suspended, an event that neither ends it nor clears
    the list leaves the messages and [loading] alone. *)
Lemma step_in_flight w e :
  loading (st w) = true -> finishes w e = false -> is_clear e = false ->
  messages (st (step w e)) = messages (st w)
  /\ loading (st (step w e)) = true.
Proof.
  intros Hl F C. rewrite st_step.
  destruct e as [p| |i r|i r|d| |i| |]; cbn [handle finishes is_clear] in *;
    try discriminate; auto.
  - rewrite sendMessage_rejected by auto. auto.
  - unfold fetch_settled.
    destruct (nth_error (calls w) i) as [[| |]|]; auto.
    destruct r; [discriminate|auto].
  - unfold body_settled.
    destruct (nth_error (calls w) i) as [[| |]|], r; auto; discriminate.
  - unfold advance. cbn. destruct (existsb _ _); auto.
  - unfold previewMessage. destruct (nth_error _ _) as [m|]; auto.
    destruct (truthy _); auto.
  - unfold viewer_loaded. destruct (head_scripts w); auto.
Qed.

Lemma run_in_flight es : forall w,
  loading (st w) = true -> in_flight_run w es = true ->
  messages (st (run w es)) = messages (st w)
  /\ loading (st (run w es)) = true.
Proof.
  induction es as [|e es IH]; intros w Hl Hr; [cbn; auto|].
  cbn [in_flight_run] in Hr. change (run w (e :: es)) with (run (step w e) es).
  apply andb_prop in Hr as [Hr Hes]. apply andb_prop in Hr as [F C].
  apply negb_true_iff in F, C.
  destruct (step_in_flight w e Hl F C) as [Hm Hl'].
  destruct (IH _ Hl' Hes) as [Hm' Hl'']. split; congruence.
Qed.

(** The end of a call appends exactly one bot message and clears
    [loading], whatever happened to the list in the meantime. *)
Lemma resolution_appends_one_bot w e :
  finishes w e = true ->
  exists b,
    role b = Bot
    /\ messages (st (step w e)) = messages (st w) ++ [b]
    /\ loading (st (step w e)) = false.
Proof.
  intros F. destruct (finishes_settle w e F) as (i & b & Hb & _ & E).
  exists b. rewrite st_step, E. auto.
Qed.




(** C2. A submission made while a request is in flight, or with an
    input whose trimmed form is empty, changes nothing at all: the
    component state, the suspended calls, the timers, the requests
    posted and the document are the same world as before. *)
Theorem rejected_submission_changes_nothing :
  forall w,
    loading (st w) = true \/ trim (prompt (st w)) = [] ->
    step w Send = w.
Proof.
  intros w H. unfold step. cbn [handle].
  rewrite (sendMessage_rejected w H). apply commit_same.
Qed.


Lemma rejected_submission_changes_nothing_witness :
  let w := run initial_world [Change (lit "a coin"); Send; Change (lit "a cube")] in
  loading (st w) = true /\ step w Send = w.
Proof.
  split; [reflexivity|].
  apply rejected_submission_changes_nothing. left. reflexivity.
Defined.

(** ** Failures and lenient replies *)

Lemma nth_error_replace_nth {A} (x y : A) : forall i l,
  nth_error l i = Some y -> nth_error (replace_nth i x l) i = Some x.
Proof.
  induction i as [|i IH]; intros [|z l] H; cbn in *; try discriminate; auto.
Qed.

(** A response with a non-success status and the body text that follows
    it end the call with the error of line 74. *)
Lemma server_error_reply w i status body :
  nth_error (calls w) i = Some AwaitFetch ->
  ok status = false ->
  messages (st (run w [ FetchSettled i (FetchResponse status);
                        BodySettled i (BodyText body) ]))
  = messages (st w)
    ++ [Msg Bot
            (VStr (lit "Error: Server error: " ++ of_nat_number status
                   ++ lit " - " ++ body))
            None None (now w)].
Proof.
  intros Hi Hok. cbn [run fold_left].
  assert (E1 : handle (FetchSettled i (FetchResponse status)) w
               = with_calls (replace_nth i (AwaitText status)) w).
  { cbn [handle]. unfold fetch_settled. now rewrite Hi, Hok. }
  set (w1 := step w (FetchSettled i (FetchResponse status))).
  assert (Hc : nth_error (calls w1) i = Some (AwaitText status)).
  { unfold w1. rewrite calls_step, E1. cbn.
    now apply nth_error_replace_nth with (y := AwaitFetch). }
  rewrite st_step. cbn [handle]. unfold body_settled. rewrite Hc.
  cbn. unfold w1. rewrite st_step, now_step, E1. cbn.
  reflexivity.
Qed.

(** In a session, an event that finishes a call ends it. *)
Lemma finishes_ends w e :
  reachable w -> finishes w e = true -> Screen.ended w (step w e).
Proof.
  intros Hr F. destruct (finishes_settle w e F) as (i & b & Hb & Hi & E).
  destruct (single_flight_settle i b (reachable_single_flight Hr) Hi) as [_ Hc].
  unfold Screen.ended. rewrite calls_step, st_step, E.
  split; [exact Hc|]. split; [reflexivity|]. exists b. auto.
Qed.

(** X8. A suspended call cannot get stuck. In a session, whichever way
    [fetch] and the body read settle (a rejected [fetch]; after any
    response a rejected body read; the text of a non-success response;
    the JSON of a success response) the call is over afterwards: no call
    is left suspended, [loading] is cleared and exactly one bot entry
    has been appended. *)
Lemma every_outcome_ends_the_call w i :
  reachable w ->
  nth_error (calls w) i = Some AwaitFetch ->
  (forall err,
      Screen.ended w (step w (FetchSettled i (FetchRejected err))))
  /\ (forall status err,
        Screen.ended w (run w [ FetchSettled i (FetchResponse status);
                                BodySettled i (BodyRejected err) ]))
  /\ (forall status body,
        ok status = false ->
        Screen.ended w (run w [ FetchSettled i (FetchResponse status);
                                BodySettled i (BodyText body) ]))
  /\ (forall status data,
        ok status = true ->
        Screen.ended w (run w [ FetchSettled i (FetchResponse status);
                                BodySettled i (BodyJson data) ])).
Proof.
  intros Hr Hi.
  assert (E : forall status,
             nth_error (calls (step w (FetchSettled i (FetchResponse status)))) i
             = Some (if ok status then AwaitJson else AwaitText status)).
  { intros status. rewrite calls_step. cbn [handle]. unfold fetch_settled.
    rewrite Hi. cbn. now apply nth_error_replace_nth with (y := AwaitFetch). }
  assert (M : forall status,
             messages (st (step w (FetchSettled i (FetchResponse status))))
             = messages (st w)).
  { intros status. rewrite st_step. cbn [handle]. unfold fetch_settled.
    now rewrite Hi. }
  assert (Two : forall status e,
             finishes (step w (FetchSettled i (FetchResponse status))) e = true ->
             Screen.ended w (run w [FetchSettled i (FetchResponse status); e])).
  { intros status e F. cbn [run fold_left].
    destruct (@finishes_ends _ _
                (reach_step (FetchSettled i (FetchResponse status)) Hr) F)
      as (Hc & Hl & b & Hb & Hm).
    rewrite M in Hm. repeat split; auto. exists b. auto. }
  split; [|split; [|split]].
  - intros err. apply finishes_ends; [exact Hr|]. cbn. now rewrite Hi.
  - intros status err. apply Two. cbn [finishes]. rewrite E.
    now destruct (ok status).
  - intros status body Hok. apply Two. cbn [finishes]. now rewrite E, Hok.
  - intros status data Hok. apply Two. cbn [finishes]. now rewrite E, Hok.
Qed.

(** C5. When the call resolves with status 500 and the body [boom], the
    one bot message appended has a text that contains [500] and [boom],
    and it has neither an [image] nor an [stlUrl] property. *)
Theorem status_500_boom_is_reported :
  forall w i,
    nth_error (calls w) i = Some AwaitFetch ->
    exists b t,
      messages (st (run w [ FetchSettled i (FetchResponse 500);
                            BodySettled i (BodyText (lit "boom")) ]))
      = messages (st w) ++ [b]
      /\ role b = Bot
      /\ text b = VStr t
      /\ includes (lit "500") t = true
      /\ includes (lit "boom") t = true
      /\ image b = None
      /\ stlUrl b = None.
Proof.
  intros w i Hi. eexists _, _. split.
  - apply server_error_reply; [exact Hi|reflexivity].
  - repeat split; vm_compute; reflexivity.
Qed.

Lemma status_500_boom_is_reported_witness :
  exists b t,
    messages (st (run initial_world
                    [ Change (lit "a coin"); Send;
                      FetchSettled 0 (FetchResponse 500);
                      BodySettled 0 (BodyText (lit "boom")) ]))
    = [Msg User (VStr (lit "a coin")) None None 0; b]
    /\ text b = VStr t
    /\ includes (lit "500") t = true
    /\ includes (lit "boom") t = true.
Proof.
  destruct (status_500_boom_is_reported
              (run initial_world [Change (lit "a coin"); Send]) 0)
    as (b & t & Hm & _ & Ht & H500 & Hboom & _).
  - reflexivity.
  - exists b, t. repeat split; assumption.
Defined.








(** ** Clear *)

(** C7. Clear empties the list whatever it held, and cancels nothing:
    the suspended calls and [loading] are as before, an event that would
    have ended a call still ends it, and the bot message of that call is
    then appended to the emptied list. *)
Theorem clear_empties_without_cancelling :
  forall w,
    messages (st (step w Clear)) = []
    /\ calls (step w Clear) = calls w
    /\ loading (st (step w Clear)) = loading (st w)
    /\ forall e,
         finishes w e = true ->
         finishes (step w Clear) e = true
         /\ exists b,
              role b = Bot
              /\ messages (st (step (step w Clear) e)) = [b].
Proof.
  intros w.
  assert (E : step w Clear = clear w) by (apply commit_unchanged; reflexivity).
  rewrite E. repeat split.
  - destruct e as [| |i [|]|i r| | | | |]; cbn in *; auto.
  - destruct (resolution_appends_one_bot (clear w) e) as (b & Hb & Hm & _).
    + destruct e as [| |i [|]|i r| | | | |]; cbn in *; auto.
    + exists b. split; [exact Hb|exact Hm].
Qed.

Lemma clear_empties_without_cancelling_witness :
  let w := run initial_world
             [ Change (lit "a coin"); Send; FetchSettled 0 (FetchResponse 200) ] in
  messages (st (step w Clear)) = []
  /\ exists b,
       role b = Bot
       /\ messages (st (run w [Clear; BodySettled 0 (BodyJson reply_done)])) = [b].
Proof.
  intros w.
  destruct (clear_empties_without_cancelling w) as (Hm & _ & _ & H).
  destruct (H (BodySettled 0 (BodyJson reply_done))) as (_ & b & Hb & Hm').
  - reflexivity.
  - split; [exact Hm|]. exists b. split; [exact Hb|exact Hm'].
Defined.

(** C10. Clear changes the message list and nothing else: the input
    text, [loading], [typing], the preview target and the preview flag
    are as before, and so is everything outside the component state. *)
Theorem clear_touches_only_messages :
  forall w,
    prompt (st (step w Clear)) = prompt (st w)
    /\ loading (st (step w Clear)) = loading (st w)
    /\ typing (st (step w Clear)) = typing (st w)
    /\ previewUrl (st (step w Clear)) = previewUrl (st w)
    /\ showPreview (st (step w Clear)) = showPreview (st w)
    /\ step w Clear
       = World (setMessages (fun _ => []) (st w)) (now w) (calls w) (timers w)
               (posted w) (head_scripts w) (viewer_defined w).
Proof.
  intros w.
  assert (E : step w Clear = clear w) by (apply commit_unchanged; reflexivity).
  rewrite E. repeat split.
Qed.

(** ** The preview surface *)

(** Whatever was shown before, the "Preview 3D" button of a message
    makes the surface show that message's model file. *)
Lemma preview_shows_selected w i m :
  nth_error (messages (st w)) i = Some m ->
  truthy (read (stlUrl m)) = true ->
  previewUrl (st (step w (Preview i))) = read (stlUrl m)
  /\ modal (st (step w (Preview i))) = Some (read (stlUrl m)).
Proof.
  intros Hi Ht. rewrite st_step. cbn [handle]. unfold previewMessage.
  rewrite Hi, Ht. unfold modal. cbn. now rewrite Ht.
Qed.

(** C4, as the code has it. Closing the surface hides it and leaves
    [previewUrl] holding the last target; the "Preview 3D" button of any
    message then replaces that target, whatever it was, so that the
    reopened surface shows the newly selected model file and no other. *)
Theorem close_hides_and_reopen_shows_selected :
  forall w i m,
    nth_error (messages (st w)) i = Some m ->
    truthy (read (stlUrl m)) = true ->
    modal (st (step w ClosePreview)) = None
    /\ previewUrl (st (step w ClosePreview)) = previewUrl (st w)
    /\ previewUrl (st (run w [ClosePreview; Preview i])) = read (stlUrl m)
    /\ modal (st (run w [ClosePreview; Preview i])) = Some (read (stlUrl m)).
Proof.
  intros w i m Hi Ht.
  assert (P : previewUrl (st (run w [ClosePreview; Preview i])) = read (stlUrl m)
              /\ modal (st (run w [ClosePreview; Preview i]))
                 = Some (read (stlUrl m))).
  { cbn [run fold_left]. apply preview_shows_selected; [|exact Ht].
    rewrite st_step. exact Hi. }
  destruct P as [P1 P2]. repeat split.
  - rewrite st_step. reflexivity.
  - rewrite st_step. reflexivity.
  - exact P1.
  - exact P2.
Qed.

Lemma close_hides_and_reopen_shows_selected_witness :
  let w := run initial_world (two_exchanges ++ [Preview 1]) in
  modal (st w) = Some (VStr (lit "https://x/y.stl"))
  /\ modal (st (step w ClosePreview)) = None
  /\ previewUrl (st (step w ClosePreview)) = VStr (lit "https://x/y.stl")
  /\ modal (st (run w [ClosePreview; Preview 3]))
     = Some (VStr (lit "https://x/z.stl")).
Proof.
  intros w.
  destruct (@close_hides_and_reopen_shows_selected w 3%nat
              (Msg Bot (VStr (lit "again")) (Some VUndefined)
                   (Some (VStr (lit "https://x/z.stl"))) 300))
    as (H1 & H2 & _ & H3).
  - reflexivity.
  - reflexivity.
  - split; [reflexivity|]. split; [exact H1|]. split; [exact H2|exact H3].
Defined.

(** After a close the target is still in [previewUrl]; it is not reset
    to [null]. *)
Lemma close_keeps_preview_url :
  let w := run initial_world (first_exchange ++ [Preview 1; ClosePreview]) in
  previewUrl (st w) = VStr (lit "https://x/y.stl")
  /\ previewUrl (st w) <> VNull.
Proof. split; [reflexivity|discriminate]. Qed.

(** ** The viewer loader *)

Lemma head_scripts_handle e w : head_scripts (handle e w) = head_scripts w.
Proof.
  destruct e as [p| |i r|i r|d| |i| |]; cbn [handle]; try reflexivity.
  - unfold sendMessage. destruct (rejected _); reflexivity.
  - unfold fetch_settled.
    destruct (nth_error _ _) as [[| |]|]; try reflexivity.
    destruct r; reflexivity.
  - unfold body_settled.
    destruct (nth_error _ _) as [[| |]|], r; reflexivity.
  - unfold previewMessage. destruct (nth_error _ _) as [m|]; [|reflexivity].
    destruct (truthy _); reflexivity.
  - unfold viewer_loaded. destruct (head_scripts w) eqn:E; cbn; congruence.
Qed.

Lemma viewer_defined_handle e w :
  viewer_defined w = true -> viewer_defined (handle e w) = true.
Proof.
  intros H.
  destruct e as [p| |i r|i r|d| |i| |]; cbn [handle]; try exact H.
  - unfold sendMessage. destruct (rejected _); exact H.
  - unfold fetch_settled.
    destruct (nth_error _ _) as [[| |]|]; try exact H.
    destruct r; exact H.
  - unfold body_settled.
    destruct (nth_error _ _) as [[| |]|], r; exact H.
  - unfold previewMessage. destruct (nth_error _ _) as [m|]; [|exact H].
    destruct (truthy _); exact H.
  - unfold viewer_loaded. destruct (head_scripts w); reflexivity || exact H.
Qed.

(** Once the element is registered it stays registered, and no event
    appends a loader script any more. *)
Lemma defined_viewer_never_injects w e :
  viewer_defined w = true ->
  head_scripts (step w e) = head_scripts w
  /\ viewer_defined (step w e) = true.
Proof.
  intros H. pose proof (viewer_defined_handle e w H) as Hd.
  unfold step. rewrite viewer_defined_commit. split; [|exact Hd].
  rewrite <- (head_scripts_handle e w).
  unfold commit, viewer_effect. rewrite Hd.
  destruct (Bool.eqb _ _); [reflexivity|].
  destruct (negb _); reflexivity.
Qed.

(** X14. Once the viewer element is registered, no run of events, however
    often the preview is opened and closed, appends a loader script. *)
Lemma defined_viewer_never_injects_run es : forall w,
  viewer_defined w = true -> head_scripts (run w es) = head_scripts w.
Proof.
  induction es as [|e es IH]; intros w H; [reflexivity|].
  change (run w (e :: es)) with (run (step w e) es).
  destruct (defined_viewer_never_injects w e H) as [Hs Hd].
  now rewrite IH.
Qed.

(** One event appends at most one loader script. *)
Lemma step_injects_at_most_one w e :
  head_scripts (step w e) = head_scripts w
  \/ head_scripts (step w e) = head_scripts w ++ [model_viewer_src].
Proof.
  rewrite <- (head_scripts_handle e w). unfold step, commit, viewer_effect.
  destruct (Bool.eqb _ _); [auto|].
  destruct (negb _); [auto|].
  destruct (viewer_defined _); auto.
Qed.

(** C3, at the input where the code departs from it. With the loader
    script of the first open still loading, closing the preview and
    opening it again appends the same loader script a second time. *)
Theorem reopening_before_registration_injects_again :
  head_scripts (run initial_world (first_exchange ++ [Preview 1]))
  = [model_viewer_src]
  /\ viewer_defined (run initial_world reopen_before_load) = false
  /\ head_scripts (run initial_world reopen_before_load)
     = [model_viewer_src; model_viewer_src].
Proof. repeat split. Qed.

(** ** The in-flight flag and the typing indicator *)

(** X7. From an accepted Send to the event that ends the call
    [loading] is set, whatever else happens in between, and that event
    clears it. *)
Lemma loading_spans_the_request w es e :
  rejected (st w) = false ->
  in_flight_run (step w Send) es = true ->
  finishes (run (step w Send) es) e = true ->
  loading (st (step w Send)) = true
  /\ loading (st (run (step w Send) es)) = true
  /\ loading (st (step (run (step w Send) es) e)) = false.
Proof.
  intros Hr Hes F.
  assert (Hl : loading (st (step w Send)) = true).
  { rewrite st_step. cbn [handle]. unfold sendMessage. now rewrite Hr. }
  destruct (run_in_flight es _ Hl Hes) as [_ Hl2].
  destruct (resolution_appends_one_bot _ e F) as (_ & _ & _ & Hl3).
  auto.
Qed.

(** X6. With no older timeout pending when a call ends, the indicator
    stays on for the grace period after it and is off once 250 ms have
    passed. *)
Lemma indicator_outlives_request w e d :
  finishes w e = true ->
  typing (st w) = true ->
  timers w = [] ->
  typing (st (step w e)) = true
  /\ ((d < grace)%N -> typing (st (run w [e; Advance d])) = true)
  /\ ((grace <= d)%N -> typing (st (run w [e; Advance d])) = false).
Proof.
  intros F Ht Hn.
  destruct (finishes_settle w e F) as (i & b & _ & _ & E).
  cbn [run fold_left]. rewrite !st_step. cbn [handle]. unfold advance.
  rewrite timers_step, now_step, st_step, E. cbn. rewrite Hn. cbn.
  unfold due. rewrite orb_false_r.
  split; [exact Ht|]. split; intros Hd.
  - replace (_ <=? _)%N with false; [exact Ht|].
    symmetry. apply N.leb_gt. lia.
  - replace (_ <=? _)%N with true; [reflexivity|].
    symmetry. apply N.leb_le. lia.
Qed.

(** C8, at the input where the code departs from it. The first reply
    arrives at 1200 ms and a second prompt is sent at 1400 ms, within the
    grace period. At 1450 ms the timeout of the first reply falls due and
    clears the indicator while the second request is still in flight;
    when that request resolves the indicator is already off, so it has
    no grace period at all. *)
Theorem stale_timeout_clears_indicator_in_flight :
  let w := run initial_world resubmit_in_grace in
  now w = 1450%N
  /\ posted w = [lit "a coin"; lit "A cylindrical spacer, outer dia 10mm"]
  /\ calls w = [AwaitFetch]
  /\ loading (st w) = true
  /\ typing (st w) = false
  /\ loading (st (run w second_reply)) = false
  /\ typing (st (run w second_reply)) = false.
Proof. repeat split. Qed.

(** ** The router *)

Import Router.


























(** * Further properties of the component *)

Import Screen.

(** ** The guard of sendMessage and what it lets through *)

Lemma trim_start_clean s :
  match trim_start s with
  | [] => True
  | c :: _ => is_space c = false
  end.
Proof.
  induction s as [|c s IH]; cbn; [exact I|].
  destruct (is_space c) eqn:E; [exact IH|exact E].
Qed.

Lemma trim_start_keeps c s : is_space c = false -> trim_start (c :: s) = c :: s.
Proof. intros H. cbn. now rewrite H. Qed.

Lemma trim_start_split s :
  exists pre, s = pre ++ trim_start s /\ forallb is_space pre = true.
Proof.
  induction s as [|c s (pre & E & H)]; cbn.
  - now exists [].
  - destruct (is_space c) eqn:Ec.
    + exists (c :: pre). cbn. rewrite Ec, H. split; [congruence|reflexivity].
    + now exists [].
Qed.

Lemma forallb_rev {A} (f : A -> bool) l : forallb f (rev l) = forallb f l.
Proof.
  induction l as [|x l IH]; cbn; [reflexivity|].
  rewrite forallb_app, IH. cbn. rewrite andb_true_r. apply andb_comm.
Qed.

(** The trimmed form is empty exactly for whitespace-only input. *)
Lemma trim_empty_iff s : trim s = [] <-> forallb is_space s = true.
Proof.
  split; [|apply trim_blank].
  unfold trim, trim_end. intros H.
  apply (f_equal (@rev _)) in H. rewrite rev_involutive in H. cbn in H.
  destruct (trim_start_split (rev (trim_start s))) as (pre & E & Hpre).
  rewrite H, app_nil_r in E.
  assert (Hu : forallb is_space (trim_start s) = true).
  { rewrite <- forallb_rev, E. exact Hpre. }
  pose proof (trim_start_clean s) as Hc.
  destruct (trim_start_split s) as (pre' & E' & Hpre').
  destruct (trim_start s) as [|c u].
  - rewrite app_nil_r in E'. now subst.
  - cbn in Hu. rewrite Hc in Hu. discriminate.
Qed.

(** The trimmed form has no whitespace at either end: trimming it again
    changes nothing. *)
Lemma trim_idempotent s : trim (trim s) = trim s.
Proof.
  unfold trim, trim_end.
  set (u := trim_start s). set (v := trim_start (rev u)).
  assert (Hv : trim_start v = v).
  { pose proof (trim_start_clean (rev u)) as Hc. fold v in Hc.
    destruct v as [|c v']; [reflexivity|now apply trim_start_keeps]. }
  assert (Hr : trim_start (rev v) = rev v).
  { destruct (trim_start_split (rev u)) as (pre & E & _). fold v in E.
    apply (f_equal (@rev _)) in E. rewrite rev_involutive, rev_app_distr in E.
    pose proof (trim_start_clean s) as Hc. fold u in Hc.
    destruct (rev v) as [|c r] eqn:Er; [reflexivity|].
    apply trim_start_keeps. rewrite E in Hc. exact Hc. }
  rewrite Hr, rev_involutive, Hv. reflexivity.
Qed.

Lemma blank_iff s :
  forallb is_space s = true <-> existsb (fun c => negb (is_space c)) s = false.
Proof.
  induction s as [|c s IH]; cbn; [tauto|].
  rewrite andb_true_iff, orb_false_iff, negb_false_iff. tauto.
Qed.

Lemma sendMessage_accepted w :
  rejected (st w) = false ->
  sendMessage w
  = World (setTyping true
             (setLoading true
                (setPrompt []
                   (setMessages
                      (fun m => m ++ [Msg User (VStr (trim (prompt (st w))))
                                          None None (now w)])
                      (st w)))))
          (now w) (calls w ++ [AwaitFetch]) (timers w)
          (posted w ++ [trim (prompt (st w))])
          (head_scripts w) (viewer_defined w).
Proof. intros H. unfold sendMessage. now rewrite H. Qed.

Lemma rejected_iff w :
  rejected (st w) = false
  <-> loading (st w) = false
      /\ existsb (fun c => negb (is_space c)) (prompt (st w)) = true.
Proof.
  unfold rejected. rewrite orb_false_iff, negb_false_iff. cbn.
  assert (H : match trim (prompt (st w)) with [] => false | _ => true end = true
              <-> existsb (fun c => negb (is_space c)) (prompt (st w)) = true).
  { pose proof (trim_empty_iff (prompt (st w))) as T.
    pose proof (blank_iff (prompt (st w))) as B.
    destruct (trim (prompt (st w)));
      destruct (existsb _ (prompt (st w))); split; intros; try reflexivity;
      try discriminate.
    - destruct T as [T _]. specialize (T eq_refl). apply B in T. discriminate.
    - destruct B as [_ B]. specialize (B eq_refl).
      destruct T as [_ T]. specialize (T B). discriminate. }
  tauto.
Qed.

(** X2. The Generate button does something exactly when no request is in
    flight and the input holds a character that is not whitespace; then
    it posts the trimmed input and empties the input box. *)
Theorem send_is_accepted_iff :
  forall w,
    (step w Send <> w
     <-> loading (st w) = false
         /\ existsb (fun c => negb (is_space c)) (prompt (st w)) = true)
    /\ (step w Send <> w ->
        posted (step w Send) = posted w ++ [trim (prompt (st w))]
        /\ prompt (st (step w Send)) = []
        /\ calls (step w Send) = calls w ++ [AwaitFetch]).
Proof.
  intros w.
  assert (A : rejected (st w) = false ->
              step w Send
              = World (setTyping true
                         (setLoading true
                            (setPrompt []
                               (setMessages
                                  (fun m => m ++ [Msg User
                                                      (VStr (trim (prompt (st w))))
                                                      None None (now w)])
                                  (st w)))))
                      (now w) (calls w ++ [AwaitFetch]) (timers w)
                      (posted w ++ [trim (prompt (st w))])
                      (head_scripts w) (viewer_defined w)).
  { intros H. unfold step. cbn [handle]. rewrite (sendMessage_accepted w H).
    apply commit_unchanged. reflexivity. }
  assert (R : rejected (st w) = true -> step w Send = w).
  { intros H. unfold step. cbn [handle]. unfold sendMessage. rewrite H.
    apply commit_same. }
  assert (D : step w Send <> w <-> rejected (st w) = false).
  { destruct (rejected (st w)) eqn:E.
    - split; [intros H; now elim H; apply R|discriminate].
    - split; [reflexivity|]. intros _ H.
      apply (f_equal (fun x => List.length (posted x))) in H.
      rewrite (A eq_refl) in H. cbn in H. rewrite length_app in H. cbn in H. lia. }
  split.
  - rewrite D. apply rejected_iff.
  - intros H. apply D in H. rewrite (A H). repeat split.
Qed.

(** ** What one event does to the history, the requests and the clock *)

Lemma posted_step w e : posted (step w e) = posted (handle e w).
Proof. apply posted_commit. Qed.

Lemma botMsg_ts data t b : botMsg data t = inr b -> ts b = t.
Proof.
  unfold botMsg.
  destruct (get data (lit "text")); [discriminate|].
  destruct (get data (lit "image")); [discriminate|].
  destruct (get data (lit "stlUrl")); [discriminate|].
  intros [= <-]. reflexivity.
Qed.

(** The message a finishing event appends: a bot entry stamped with the
    current time; after a failure, the error text with no attachment. *)
Lemma finishes_appends w e :
  finishes w e = true ->
  exists i b,
    role b = Bot
    /\ ts b = now w
    /\ (fails w e = true ->
        exists err, b = errorMsg err (now w))
    /\ handle e w = settle i (inr b) w.
Proof.
  destruct e as [| |i r|i r| | | | |]; cbn [finishes fails handle]; try discriminate.
  - destruct r as [err|status]; [|discriminate].
    unfold fetch_settled.
    destruct (nth_error (calls w) i) as [[| |]|] eqn:E; try discriminate.
    intros _. exists i, (errorMsg err (now w)). repeat split. eauto.
  - unfold body_settled.
    destruct (nth_error (calls w) i) as [[|status|]|] eqn:E, r; try discriminate;
      intros _.
    + exists i, (errorMsg e (now w)). repeat split. eauto.
    + exists i, (errorMsg (server_error status s) (now w)). repeat split. eauto.
    + exists i, (errorMsg e (now w)). repeat split. eauto.
    + destruct (botMsg data (now w)) as [err|b] eqn:B.
      * exists i, (errorMsg err (now w)). repeat split. discriminate.
      * exists i, b. repeat split.
        -- now apply botMsg_role in B.
        -- now apply botMsg_ts in B.
        -- discriminate.
Qed.

(** An event that does not end a call, is not Clear and is not an
    accepted Send leaves the messages alone. *)
Lemma quiet_step_messages w e :
  finishes w e = false -> is_clear e = false ->
  (is_send e = true -> rejected (st w) = true) ->
  messages (st (step w e)) = messages (st w).
Proof.
  intros F C S. rewrite st_step.
  destruct e as [p| |i r|i r|d| |i| |]; cbn [handle finishes is_clear] in *;
    try discriminate; auto.
  - unfold sendMessage. now rewrite (S eq_refl).
  - unfold fetch_settled.
    destruct (nth_error (calls w) i) as [[| |]|]; auto.
    destruct r; [discriminate|auto].
  - unfold body_settled.
    destruct (nth_error (calls w) i) as [[| |]|], r; auto; discriminate.
  - unfold advance. cbn. destruct (existsb _ _); auto.
  - unfold previewMessage. destruct (nth_error _ _) as [m|]; auto.
    destruct (truthy _); auto.
  - unfold viewer_loaded. destruct (head_scripts w); auto.
Qed.

(** The four things an event can do to the history. *)
Lemma messages_step w e :
  messages (st (step w e)) = messages (st w)
  \/ messages (st (step w e)) = []
  \/ (exists b,
        role b = Bot /\ ts b = now w
        /\ messages (st (step w e)) = messages (st w) ++ [b])
  \/ (rejected (st w) = false
      /\ messages (st (step w e))
         = messages (st w)
           ++ [Msg User (VStr (trim (prompt (st w)))) None None (now w)]).
Proof.
  destruct (finishes w e) eqn:F.
  { destruct (finishes_appends w e F) as (i & b & Hb & Ht & _ & E).
    right. right. left. exists b. rewrite st_step, E. auto. }
  destruct (is_clear e) eqn:C.
  { destruct e; try discriminate. right. left. now rewrite st_step. }
  destruct (is_send e) eqn:S.
  { destruct e; try discriminate. destruct (rejected (st w)) eqn:R.
    - left. apply quiet_step_messages; auto.
    - right. right. right. split; [reflexivity|].
      rewrite st_step. cbn [handle]. now rewrite (sendMessage_accepted w R). }
  left. apply quiet_step_messages; auto. intros H. congruence.
Qed.

Lemma posted_step_cases w e :
  posted (step w e) = posted w
  \/ (e = Send /\ rejected (st w) = false
      /\ posted (step w e) = posted w ++ [trim (prompt (st w))]).
Proof.
  rewrite posted_step.
  destruct e as [p| |i r|i r|d| |i| |]; cbn [handle]; auto.
  - destruct (rejected (st w)) eqn:R.
    + left. unfold sendMessage. now rewrite R.
    + right. rewrite (sendMessage_accepted w R). auto.
  - left. unfold fetch_settled.
    destruct (nth_error (calls w) i) as [[| |]|]; auto. destruct r; auto.
  - left. unfold body_settled.
    destruct (nth_error (calls w) i) as [[| |]|], r; auto.
  - left. unfold previewMessage. destruct (nth_error _ _) as [m|]; auto.
    destruct (truthy _); auto.
  - left. unfold viewer_loaded. destruct (head_scripts w); auto.
Qed.

(** ** Invariants of a session *)

Lemma rejected_false_trim w : rejected (st w) = false -> trim (prompt (st w)) <> [].
Proof.
  unfold rejected. intros H. apply orb_false_elim in H as [H _].
  cbn in H. destruct (trim (prompt (st w))); [discriminate|congruence].
Qed.

Lemma user_entry_bubble m :
  user_entry m ->
  right_aligned (render_message m) = true ->
  picture (render_message m) = None
  /\ stl_buttons (render_message m) = None.
Proof.
  intros H R. unfold render_message in *. cbn in *.
  destruct (role m) eqn:E; [|discriminate].
  destruct (H E) as (t & _ & _ & _ & -> & ->). auto.
Qed.

(** X3. Every user entry of the history, in every world of a session,
    is as [sendMessage] made it: its text is a non-empty string without
    whitespace at either end and it carries no image and no model file,
    so it is drawn without a picture and without the Preview and Download
    buttons. The message of every request posted is likewise non-empty
    and trimmed. *)
Theorem user_entries_are_trimmed :
  forall w,
    reachable w ->
    Forall user_entry (messages (st w))
    /\ Forall (fun t => t <> [] /\ trim t = t) (posted w)
    /\ Forall (fun b => right_aligned b = true ->
                        picture b = None /\ stl_buttons b = None)
              (bubbles (render w)).
Proof.
  intros w Hr.
  assert (I : Forall user_entry (messages (st w))
              /\ Forall (fun t => t <> [] /\ trim t = t) (posted w)).
  { induction Hr as [|w e _ [IHm IHp]].
    - split; constructor.
    - split.
      + destruct (messages_step w e) as [E|[E|[(b & Hb & _ & E)|(R & E)]]];
          rewrite E; auto.
        * apply Forall_app. split; [exact IHm|].
          constructor; [|constructor]. intros Hu. congruence.
        * apply Forall_app. split; [exact IHm|].
          constructor; [|constructor]. intros _.
          exists (trim (prompt (st w))). repeat split.
          -- now apply rejected_false_trim.
          -- apply trim_idempotent.
      + destruct (posted_step_cases w e) as [E|(_ & R & E)]; rewrite E; auto.
        apply Forall_app. split; [exact IHp|].
        constructor; [|constructor]. split.
        * now apply rejected_false_trim.
        * apply trim_idempotent. }
  destruct I as [Im Ip]. repeat split; auto.
  unfold render. cbn [bubbles]. apply Forall_forall. intros b Hb.
  apply in_map_iff in Hb as (m & <- & Hm).
  rewrite Forall_forall in Im. apply user_entry_bubble. now apply Im.
Qed.

Lemma user_entries_are_trimmed_witness :
  Forall user_entry (messages (st (run initial_world first_exchange))).
Proof.
  apply (user_entries_are_trimmed (w := run initial_world first_exchange)).
  apply reachable_run. constructor.
Defined.

(** ** The typing indicator *)

Ltac open_handler :=
  cbn [handle];
  unfold sendMessage, fetch_settled, body_settled, previewMessage,
    viewer_loaded, advance, clear, closePreview, openPreview, settle,
    with_st, with_calls;
  repeat match goal with
         | |- context [match ?x with _ => _ end] => destruct x eqn:?
         end;
  cbn.

Ltac timeouts_case IHt IHy :=
  split;
  [ first [ exact IHt
          | apply Forall_app; split;
            [exact IHt|constructor; [unfold grace; lia|constructor]] ]
  | first [ exact IHy
          | intros _; left; reflexivity
          | intros _; right; destruct (timers _); discriminate ] ].

(** Every pending timeout falls due within the grace period, and the
    indicator is on only while a request is in flight or a timeout that
    will clear it is pending. *)
Lemma timeouts_are_close w :
  reachable w ->
  Forall (fun t => (now w < t <= now w + grace)%N) (timers w)
  /\ (typing (st w) = true -> loading (st w) = true \/ timers w <> []).
Proof.
  induction 1 as [|w e _ [IHt IHy]].
  - split; [constructor|discriminate].
  - rewrite st_step, timers_step, now_step.
    destruct e as [p| |i r|i r|d| |i| |].
    5: { cbn [handle]. unfold advance. cbn.
      assert (Ht : Forall (fun t => (now w + d < t <= now w + d + grace)%N)
                     (filter (fun x => negb (due (now w + d) x)) (timers w))).
      { apply Forall_forall. intros t Hin. apply filter_In in Hin as [Hin Hd].
        rewrite Forall_forall in IHt. specialize (IHt t Hin).
        apply negb_true_iff in Hd. unfold due in Hd. apply N.leb_gt in Hd. lia. }
      split; [exact Ht|].
      destruct (existsb (due (now w + d)) (timers w)) eqn:E; [discriminate|].
      intros Hy. destruct (IHy Hy) as [Hl|Hne]; [now left|right].
      assert (F : filter (fun x => negb (due (now w + d) x)) (timers w) = timers w).
      { apply forallb_filter_id. apply forallb_forall. intros t Hin.
        apply negb_true_iff. destruct (due (now w + d) t) eqn:D; [|reflexivity].
        assert (existsb (due (now w + d)) (timers w) = true)
          by (apply existsb_exists; eauto).
        congruence. }
      now rewrite F. }
    all: open_handler; timeouts_case IHt IHy.
Qed.

(** X5. The indicator never stays on for good: in every world of a
    session with no request in flight, once the grace period has passed
    the indicator is off. *)
Theorem indicator_never_sticks :
  forall w d,
    reachable w ->
    loading (st w) = false ->
    (grace <= d)%N ->
    typing (st (step w (Advance d))) = false
    /\ timers (step w (Advance d)) = [].
Proof.
  intros w d Hr Hl Hd. destruct (timeouts_are_close Hr) as [Ht Hy].
  rewrite st_step, timers_step. cbn [handle]. unfold advance. cbn.
  assert (Hdue : forall t, In t (timers w) -> due (now w + d) t = true).
  { intros t Hin. rewrite Forall_forall in Ht. specialize (Ht t Hin).
    unfold due. apply N.leb_le. lia. }
  split.
  - destruct (existsb (due (now w + d)) (timers w)) eqn:E; [reflexivity|].
    destruct (typing (st w)) eqn:Y; [|reflexivity].
    destruct (Hy eq_refl) as [Hl'|Hne]; [congruence|].
    destruct (timers w) as [|t ts]; [congruence|].
    cbn in E. rewrite (Hdue t) in E by (now left). discriminate.
  - clear Ht Hy. induction (timers w) as [|t l IH]; [reflexivity|].
    cbn. rewrite (Hdue t) by (now left). cbn. apply IH.
    intros t' Hin. apply Hdue. now right.
Qed.

Lemma indicator_never_sticks_witness :
  typing (st (run initial_world first_exchange)) = true
  /\ typing (st (run initial_world (first_exchange ++ [Advance 250]))) = false.
Proof.
  split; [reflexivity|].
  apply (indicator_never_sticks (w := run initial_world first_exchange) (d := 250)).
  - apply reachable_run. constructor.
  - reflexivity.
  - discriminate.
Defined.

(** ** The loader script *)

Lemma showPreview_handle w e :
  is_preview e = false ->
  showPreview (st (handle e w)) = showPreview (st w)
  \/ showPreview (st (handle e w)) = false.
Proof.
  intros P. destruct e as [p| |i r|i r|d| |i| |]; try discriminate;
    open_handler; auto.
Qed.

Lemma non_preview_keeps_scripts w e :
  is_preview e = false -> head_scripts (step w e) = head_scripts w.
Proof.
  intros P. rewrite <- (head_scripts_handle e w).
  unfold step, commit, viewer_effect.
  destruct (showPreview_handle w e P) as [E|E]; rewrite E.
  - now rewrite Bool.eqb_reflx.
  - cbn. destruct (Bool.eqb _ _); reflexivity.
Qed.

(** X12. A loader script is appended only by a "Preview 3D" click that
    opens the dialog while it is closed and the viewer element is not
    registered; that click appends exactly one. Typing, sending, replies,
    failures, timers, Clear and Close never touch [document.head]. *)
Theorem only_opening_the_preview_injects :
  forall w e,
    head_scripts (step w e) <> head_scripts w ->
    is_preview e = true
    /\ showPreview (st w) = false
    /\ viewer_defined w = false
    /\ head_scripts (step w e) = head_scripts w ++ [model_viewer_src].
Proof.
  intros w e H.
  destruct (is_preview e) eqn:P;
    [|elim H; now apply non_preview_keeps_scripts].
  destruct e; try discriminate. clear P.
  split; [reflexivity|]. revert H.
  unfold step, commit, viewer_effect. cbn [handle]. unfold previewMessage.
  destruct (nth_error _ _) as [m|];
    [destruct (truthy (read (stlUrl m)))|]; cbn;
    rewrite ?Bool.eqb_reflx; try congruence;
    destruct (showPreview (st w)); cbn; try congruence;
    destruct (viewer_defined w); cbn; try congruence; auto.
Qed.

Lemma only_opening_the_preview_injects_witness :
  let w := run initial_world first_exchange in
  showPreview (st w) = false
  /\ head_scripts (step w (Preview 1)) = head_scripts w ++ [model_viewer_src].
Proof.
  intros w.
  destruct (only_opening_the_preview_injects w (Preview 1)) as (_ & H1 & _ & H2).
  - vm_compute. discriminate.
  - split; [exact H1|exact H2].
Defined.

(** X13. Over a whole run the number of loader scripts grows by at most
    the number of "Preview 3D" clicks. *)
Theorem scripts_are_bounded_by_preview_clicks :
  forall es w,
    (List.length (head_scripts (run w es))
     <= List.length (head_scripts w) + List.length (filter is_preview es))%nat.
Proof.
  induction es as [|e es IH]; intros w; [cbn; lia|].
  change (run w (e :: es)) with (run (step w e) es).
  specialize (IH (step w e)). cbn [filter].
  destruct (is_preview e) eqn:P.
  - destruct (step_injects_at_most_one w e) as [E|E]; rewrite E in IH;
      rewrite ?length_app in IH; cbn in *; lia.
  - rewrite (non_preview_keeps_scripts w e P) in IH. lia.
Qed.

Lemma defined_viewer_never_injects_run_witness :
  let w := run initial_world (first_exchange ++ [Preview 1; ViewerLoaded]) in
  head_scripts (run w [ClosePreview; Preview 1; ClosePreview; Preview 1])
  = [model_viewer_src].
Proof.
  intros w.
  apply (defined_viewer_never_injects_run
           [ClosePreview; Preview 1; ClosePreview; Preview 1] w).
  reflexivity.
Defined.

(** ** The preview dialog *)

Lemma preview_target_is_truthy w :
  reachable w ->
  showPreview (st w) = true -> truthy (previewUrl (st w)) = true.
Proof.
  induction 1 as [|w e _ IH]; [discriminate|].
  rewrite st_step.
  destruct e as [p| |i r|i r|d| |i| |]; open_handler; auto; discriminate.
Qed.

Lemma live_reachable w : live w -> reachable w.
Proof. induction 1; now constructor. Qed.

Lemma live_paints w : live w -> paints w = true.
Proof. destruct 1; [reflexivity|assumption]. Qed.

Lemma live_shown w : live w -> shown w = Some (render w).
Proof. intros H. unfold shown. now rewrite (live_paints H). Qed.

(** X15. As long as the screen stands, the preview dialog is on it
    exactly when [showPreview] is set: an open dialog always has a truthy
    target, and that target is the stored [previewUrl]. *)
Theorem dialog_is_shown_iff_open :
  forall w,
    live w ->
    exists s,
      shown w = Some s
      /\ ((showPreview (st w) = false /\ dialog s = None)
          \/ (showPreview (st w) = true
              /\ truthy (previewUrl (st w)) = true
              /\ dialog s = Some (previewUrl (st w)))).
Proof.
  intros w Hl. exists (render w). split; [now apply live_shown|].
  pose proof (preview_target_is_truthy (live_reachable Hl)) as T.
  unfold render, modal. cbn.
  destruct (showPreview (st w)); [right|left; auto].
  rewrite (T eq_refl). auto.
Qed.

Lemma live_run_first_exchange_preview :
  live (run initial_world (first_exchange ++ [Preview 1])).
Proof.
  repeat (apply live_step; [|reflexivity]). apply live_init.
Qed.

Lemma dialog_is_shown_iff_open_witness :
  exists s,
    shown (run initial_world (first_exchange ++ [Preview 1])) = Some s
    /\ dialog s = Some (VStr (lit "https://x/y.stl")).
Proof.
  destruct (dialog_is_shown_iff_open live_run_first_exchange_preview)
    as (s & Hs & [[H _]|(_ & _ & H)]).
  - discriminate H.
  - exists s. split; [exact Hs|exact H].
Defined.

(** ** The busy controls *)

(** X1. As long as the screen stands, at most one call is suspended and
    the screen says so: with none, the badge reads Idle and the input and
    the Generate button are enabled; with one, the badge reads
    Generating, both controls are disabled and [loading] is set. *)
Theorem busy_controls_match_the_request :
  forall w,
    live w ->
    exists s,
      shown w = Some s
      /\ ((calls w = []
           /\ status s = lit "Idle"
           /\ generate_label s = lit "Generate"
           /\ input_disabled s = false
           /\ generate_disabled s = false)
          \/ (exists c, calls w = [c]
              /\ status s = lit "Generating" ++ [ellipsis]
              /\ generate_label s = lit "Generating..."
              /\ input_disabled s = true
              /\ generate_disabled s = true)).
Proof.
  intros w Hl. exists (render w). split; [now apply live_shown|].
  destruct (reachable_single_flight (live_reachable Hl))
    as [[Hf Hc]|[Hf [c Hc]]];
    unfold render; cbn; rewrite Hf.
  - left. auto.
  - right. exists c. auto.
Qed.

Lemma live_run_coin_sent : live (run initial_world [Change (lit "a coin"); Send]).
Proof.
  repeat (apply live_step; [|reflexivity]). apply live_init.
Qed.

Lemma busy_controls_match_the_request_witness :
  exists s,
    shown (run initial_world [Change (lit "a coin"); Send]) = Some s
    /\ generate_disabled s = true.
Proof.
  destruct (busy_controls_match_the_request live_run_coin_sent)
    as (s & Hs & [(H & _)|(c & _ & _ & _ & _ & H)]).
  - discriminate H.
  - exists s. split; [exact Hs|exact H].
Defined.

(** ** Requests *)

(** X11. Requests are only ever added, and only by Generate or Enter: over
    any run the list of posted messages grows at its end by at most one
    entry for each Send, so no reply, failure, timer or other click ever
    posts or re-posts one. *)
Theorem requests_come_only_from_sends :
  forall es w,
    exists sent,
      posted (run w es) = posted w ++ sent
      /\ (List.length sent <= List.length (filter is_send es))%nat.
Proof.
  induction es as [|e es IH]; intros w.
  - exists []. cbn. rewrite app_nil_r. auto.
  - change (run w (e :: es)) with (run (step w e) es).
    destruct (IH (step w e)) as (sent & E & L). cbn [filter].
    destruct (posted_step_cases w e) as [P|(-> & _ & P)]; rewrite P in E.
    + exists sent. split; [exact E|]. destruct (is_send e); cbn; lia.
    + exists (trim (prompt (st w)) :: sent). rewrite <- app_assoc in E.
      split; [exact E|]. cbn. lia.
Qed.




(** X10. Whatever the non-success status and whatever the body, the bot
    text begins with [Error: ] and contains both the decimal status code
    and the whole body. *)
Theorem non_success_status_is_reported :
  forall w i status body,
    nth_error (calls w) i = Some AwaitFetch ->
    ok status = false ->
    exists t,
      messages (st (run w [ FetchSettled i (FetchResponse status);
                            BodySettled i (BodyText body) ]))
      = messages (st w) ++ [Msg Bot (VStr t) None None (now w)]
      /\ starts_with (lit "Error: ") t = true
      /\ includes (of_nat_number status) t = true
      /\ includes body t = true.
Proof.
  intros w i status body Hi Hok. eexists. split.
  - apply server_error_reply; eassumption.
  - split; [reflexivity|]. split.
    + apply (includes_app (of_nat_number status)
                          (lit "Error: Server error: ") (lit " - " ++ body)).
    + replace (lit "Error: Server error: " ++ of_nat_number status
               ++ lit " - " ++ body)
        with ((lit "Error: Server error: " ++ of_nat_number status ++ lit " - ")
              ++ body ++ [])
        by (rewrite app_nil_r, <- !app_assoc; reflexivity).
      apply includes_app.
Qed.

Lemma non_success_status_is_reported_witness :
  exists t,
    messages (st (run initial_world
                    [ Change (lit "a coin"); Send;
                      FetchSettled 0 (FetchResponse 404);
                      BodySettled 0 (BodyText (lit "Not Found")) ]))
    = [ Msg User (VStr (lit "a coin")) None None 0;
        Msg Bot (VStr t) None None 0 ]
    /\ includes (lit "404") t = true.
Proof.
  destruct (@non_success_status_is_reported
              (run initial_world [Change (lit "a coin"); Send]) 0%nat
              404%N (lit "Not Found"))
    as (t & H & _ & H404 & _).
  - reflexivity.
  - reflexivity.
  - exists t. split; [exact H|exact H404].
Defined.

(** ** Download *)









(** ** The keyboard and the quick prompts *)

Lemma str_eqb_eq a : forall b, str_eqb a b = true <-> a = b.
Proof.
  induction a as [|x a IH]; intros [|y b]; cbn; try (split; congruence).
  rewrite andb_true_iff, IH. unfold cu_eqb. rewrite N.eqb_eq.
  split; [intros [-> ->]; reflexivity|intros [= -> ->]; auto].
Qed.

Lemma sendMessage_changes_iff w : sendMessage w <> w <-> rejected (st w) = false.
Proof.
  destruct (rejected (st w)) eqn:R.
  - split; [|discriminate]. intros H. elim H.
    unfold sendMessage. now rewrite R.
  - split; [reflexivity|]. intros _ H.
    apply (f_equal (fun x => List.length (posted x))) in H.
    rewrite (sendMessage_accepted w R) in H. cbn in H.
    rewrite length_app in H. cbn in H. lia.
Qed.

(** X18. A key press in the input changes something exactly when it is
    Enter without Shift, no request is in flight and the input is not
    blank; what it then does is what the Generate button does. The
    default action is suppressed exactly for Enter without Shift, so
    Shift+Enter is left to insert its line break. *)
Theorem enter_submits_and_shift_enter_does_not :
  forall e w,
    (fst (handleKeyDown e w) = true
     <-> key e = lit "Enter" /\ shiftKey e = false)
    /\ (snd (handleKeyDown e w) <> w
        <-> key e = lit "Enter" /\ shiftKey e = false
            /\ loading (st w) = false
            /\ existsb (fun c => negb (is_space c)) (prompt (st w)) = true)
    /\ (snd (handleKeyDown e w) <> w -> snd (handleKeyDown e w) = step w Send).
Proof.
  intros e w.
  assert (Same : sendMessage w = step w Send).
  { unfold step. cbn [handle]. symmetry.
    destruct (rejected (st w)) eqn:R.
    - unfold sendMessage. rewrite R. apply commit_same.
    - rewrite (sendMessage_accepted w R). apply commit_unchanged. reflexivity. }
  pose proof (sendMessage_changes_iff w) as Ch.
  pose proof (rejected_iff w) as Rj.
  pose proof (str_eqb_eq (key e) (lit "Enter")) as K.
  unfold handleKeyDown.
  destruct (str_eqb (key e) (lit "Enter")) eqn:E; cbn [andb].
  - destruct K as [K _]. specialize (K eq_refl).
    destruct (shiftKey e) eqn:S; cbn [negb fst snd].
    + intuition congruence.
    + intuition congruence.
  - assert (N : key e <> lit "Enter").
    { intros H. apply K in H. discriminate. }
    cbn [fst snd]. intuition congruence.
Qed.

(** X19. A quick prompt goes out as it is written: picked while no request
    is in flight and sent, each of the three posts exactly its own text
    and shows it as the user entry. *)
Theorem quick_prompt_is_sent_verbatim :
  forall w q,
    In q quick_prompts ->
    loading (st w) = false ->
    posted (run w [Change q; Send]) = posted w ++ [q]
    /\ messages (st (run w [Change q; Send]))
       = messages (st w) ++ [Msg User (VStr q) None None (now w)].
Proof.
  intros w q Hq Hl.
  assert (T : trim q = q).
  { cbn in Hq. destruct Hq as [<-|[<-|[<-|[]]]]; vm_compute; reflexivity. }
  assert (Q : q <> []).
  { cbn in Hq. destruct Hq as [<-|[<-|[<-|[]]]]; discriminate. }
  cbn [run fold_left].
  assert (C : step w (Change q) = with_st (setPrompt q) w).
  { apply commit_unchanged. reflexivity. }
  rewrite C.
  assert (R : rejected (st (with_st (setPrompt q) w)) = false).
  { apply rejected_false.
    - change (trim q <> []). now rewrite T.
    - exact Hl. }
  rewrite posted_step, st_step. cbn [handle].
  rewrite (sendMessage_accepted _ R).
  change (prompt (st (with_st (setPrompt q) w))) with q. rewrite T.
  split; reflexivity.
Qed.

Lemma quick_prompt_is_sent_verbatim_witness :
  posted (run initial_world
            [ Change (lit "A cylindrical spacer, outer dia 10mm, inner hole 4mm, height 8mm, chamfered edges");
              Send ])
  = [lit "A cylindrical spacer, outer dia 10mm, inner hole 4mm, height 8mm, chamfered edges"].
Proof.
  apply (quick_prompt_is_sent_verbatim initial_world).
  - right. left. reflexivity.
  - reflexivity.
Defined.

(** ** Where a path ends up *)




(** ** Witnesses of the request lemmas *)

Lemma every_outcome_ends_the_call_witness :
  Screen.ended
    (run initial_world [Change (lit "a coin"); Send])
    (run initial_world
       [ Change (lit "a coin"); Send;
         FetchSettled 0 (FetchResponse 503);
         BodySettled 0 (BodyText (lit "busy")) ]).
Proof.
  destruct (@every_outcome_ends_the_call
              (run initial_world [Change (lit "a coin"); Send]) 0%nat)
    as (_ & _ & H & _).
  - apply reachable_run. constructor.
  - reflexivity.
  - apply (H 503%N (lit "busy")). reflexivity.
Defined.

Lemma loading_spans_the_request_witness :
  let w := run initial_world [Change (lit "a coin")] in
  loading (st (run w [Send; Advance 900; FetchSettled 0 (FetchResponse 200)]))
  = true
  /\ loading (st (run w [ Send; Advance 900; FetchSettled 0 (FetchResponse 200);
                          BodySettled 0 (BodyJson reply_done) ])) = false.
Proof.
  intros w.
  destruct (@loading_spans_the_request w
              [Advance 900; FetchSettled 0 (FetchResponse 200)]
              (BodySettled 0 (BodyJson reply_done)))
    as (_ & H1 & H2).
  - reflexivity.
  - reflexivity.
  - reflexivity.
  - split; [exact H1|exact H2].
Defined.

Lemma indicator_outlives_request_witness :
  let w := run initial_world
             [Change (lit "a coin"); Send; FetchSettled 0 (FetchResponse 200)] in
  typing (st (run w [BodySettled 0 (BodyJson reply_done); Advance 249])) = true
  /\ typing (st (run w [BodySettled 0 (BodyJson reply_done); Advance 250])) = false.
Proof.
  intros w. split.
  - destruct (@indicator_outlives_request w
                (BodySettled 0 (BodyJson reply_done)) 249%N) as (_ & H & _);
      [reflexivity|reflexivity|reflexivity|].
    apply H. reflexivity.
  - destruct (@indicator_outlives_request w
                (BodySettled 0 (BodyJson reply_done)) 250%N) as (_ & _ & H);
      [reflexivity|reflexivity|reflexivity|].
    apply H. discriminate.
Defined.
